(** * muli/error.hxx: contract checks and the failures they raise

    A shallow embedding of [src/include/muli/error.hxx]: the class
    [ContractViolation], the helpers [throw_contract_error] and
    [throw_runtime_error], and the macros [muli_precondition],
    [muli_assert], [muli_postcondition], [muli_invariant] and [muli_fail]
    of both branches of the header's [#if 1 ... #else ... #endif]. *)

From Stdlib Require Import ZArith String Ascii List Bool Lia.
From Stdlib Require Import DecimalString DecimalZ.
Import ListNotations.

Open Scope string_scope.

(** ** Text

    [std::string] holds any sequence of characters.  A [char const *] is read
    up to its terminating NUL, so the text it denotes holds no NUL: the type
    [c_string] carries that fact.  Null pointers are not modelled (inserting
    one into a stream has no defined result). *)

Definition std_string : Type := string.

Definition NUL : ascii := Ascii.zero.

(** The one-character literal ["\n"]. *)
Definition LF : string := String (ascii_of_nat 10) EmptyString.

Fixpoint no_nul (s : string) : bool :=
  match s with
  | EmptyString => true
  | String c r => negb (Ascii.eqb c NUL) && no_nul r
  end.

Record c_string : Type := mk_c_string
  { chars :> string;
    chars_no_nul : no_nul chars = true }.

(** A string literal of the source. *)
Notation "'lit' s" := (mk_c_string s eq_refl) (at level 9, s at level 0).

(** What a reader of a NUL-terminated array sees of [s]: the characters
    before the first NUL. *)
Fixpoint until_nul (s : string) : string :=
  match s with
  | EmptyString => EmptyString
  | String c r => if Ascii.eqb c NUL then EmptyString else String c (until_nul r)
  end.

Fixpoint until_nul_no_nul (s : string) : no_nul (until_nul s) = true.
Proof.
  destruct s as [|c r]; simpl.
  - reflexivity.
  - destruct (Ascii.eqb c NUL) eqn:E; simpl.
    + reflexivity.
    + rewrite E. simpl. apply until_nul_no_nul.
Defined.

(** [std::string::c_str()]. *)
Definition c_str (s : std_string) : c_string :=
  mk_c_string (until_nul s) (until_nul_no_nul s).

(** ** Numbers

    [int line] is printed, never computed with, so an [int] is the integer it
    holds.  [operator<<(int)] writes it in decimal: a minus sign for a
    negative value, no leading zero, no digit grouping (the classic
    locale). *)

Definition int : Type := Z.

Definition decimal (n : int) : string := NilZero.string_of_int (Z.to_int n).

Arguments decimal n%_Z_scope.

(** ** [std::ostringstream]

    A stream is the text written to it so far; [str()] returns that text. *)

Definition ostringstream : Type := std_string.

Definition ostringstream_new : ostringstream := EmptyString.

Definition put_c_string (s : ostringstream) (x : c_string) : ostringstream :=
  s ++ chars x.

Definition put_std_string (s : ostringstream) (x : std_string) : ostringstream :=
  s ++ x.

Definition put_int (s : ostringstream) (n : int) : ostringstream :=
  s ++ decimal n.

Definition str (s : ostringstream) : std_string := s.

Notation "s <<c x" := (put_c_string s x) (at level 50, left associativity).
Notation "s <<s x" := (put_std_string s x) (at level 50, left associativity).
Notation "s <<i x" := (put_int s x) (at level 50, left associativity).

(** ** Exceptions

    [ContractViolation] derives from [std::runtime_error] and adds no member:
    an exception object is its dynamic class and the string its constructor
    stored.  [what()] returns a [char const *] to that string. *)

Inductive exception_class : Type :=
| class_runtime_error
| class_ContractViolation.

Record exception : Type := mk_exception
  { dynamic_class : exception_class;
    what_arg : std_string }.

Definition what (e : exception) : c_string := c_str (what_arg e).

(** The rendered string of a failure: the text [what()] points to. *)
Definition rendered (e : exception) : string := chars (what e).

(** The two constructors of [std::runtime_error]: from a [std::string] and
    from a [char const *]. *)
Definition runtime_error (what_arg : std_string) : exception :=
  mk_exception class_runtime_error what_arg.

Definition runtime_error_c (what_arg : c_string) : exception :=
  mk_exception class_runtime_error (chars what_arg).

Module ContractViolation.

(** [createMessage(prefix, message)]. *)
Definition createMessage (prefix message : c_string) : std_string :=
  let s := ostringstream_new in
  let s := s <<c lit LF <<c prefix <<c lit LF <<c message <<c lit LF in
  str s.

(** [createMessage(prefix, message, file, line)]. *)
Definition createMessage_at (prefix message file : c_string) (line : int)
  : std_string :=
  let s := ostringstream_new in
  let s := s <<c lit LF <<c prefix <<c lit LF <<c message <<c lit (LF ++ "(")
             <<c file <<c lit ":" <<i line <<c lit (")" ++ LF) in
  str s.

(** [ContractViolation(prefix, message)]. *)
Definition new (prefix message : c_string) : exception :=
  mk_exception class_ContractViolation (createMessage prefix message).

(** [ContractViolation(prefix, message, file, line)]. *)
Definition new_at (prefix message file : c_string) (line : int) : exception :=
  mk_exception class_ContractViolation (createMessage_at prefix message file line).

End ContractViolation.

(** ** Expressions, calls and macros

    The arguments [PREDICATE] and [MESSAGE] of a macro are expressions of the
    caller: evaluating one yields a value and may change the caller's state.
    Every macro of the [#if] branch expands to a function call, so both
    expressions are evaluated, each once, before the body of the helper
    runs; the language leaves the order of the two open, and [arg_order]
    names the order a compiler picked.  The other arguments are literals.
    An expression is taken to complete: one that throws by itself never
    reaches the macro. *)

Definition expr (St A : Type) : Type := St -> A * St.

Definition pure {St A : Type} (a : A) : expr St A := fun s => (a, s).

Definition map_expr {St A B : Type} (f : A -> B) (e : expr St A) : expr St B :=
  fun s => let (a, s') := e s in (f a, s').

Inductive arg_order : Type :=
| predicate_first
| message_first.

Definition eval_args {St A B : Type} (o : arg_order)
  (P : expr St A) (M : expr St B) : expr St (A * B) :=
  fun s =>
    match o with
    | predicate_first =>
        let (p, s1) := P s in let (m, s2) := M s1 in ((p, m), s2)
    | message_first =>
        let (m, s1) := M s in let (p, s2) := P s1 in ((p, m), s2)
    end.

(** A statement either completes or leaves by an exception. *)
Inductive outcome : Type :=
| Returned
| Thrown (e : exception).

(** The value of a [MESSAGE]: its type picks the overload that is called. *)
Inductive message_value : Type :=
| char_ptr (m : c_string)
| std_str (m : std_string).

(** [__FILE__] and [__LINE__] where the macro is used. *)
Record call_site : Type := mk_call_site
  { FILE : c_string;
    LINE : int }.

(** *** The [#if] branch *)

Module Checked.

(** [throw_contract_error(bool, char const *, char const *, char const *, int)]. *)
Definition throw_contract_error_c (predicate : bool)
  (prefix message file : c_string) (line : int) : outcome :=
  if negb predicate
  then Thrown (ContractViolation.new_at prefix message file line)
  else Returned.

(** [throw_contract_error(bool, char const *, std::string, char const *, int)]. *)
Definition throw_contract_error_s (predicate : bool)
  (prefix : c_string) (message : std_string) (file : c_string) (line : int)
  : outcome :=
  if negb predicate
  then Thrown (ContractViolation.new_at prefix (c_str message) file line)
  else Returned.

(** [throw_runtime_error(char const *, char const *, int)]. *)
Definition throw_runtime_error_c (message file : c_string) (line : int)
  : outcome :=
  let what := ostringstream_new in
  let what := what <<c lit LF <<c message <<c lit (LF ++ "(")
                   <<c file <<c lit ":" <<i line <<c lit (")" ++ LF) in
  Thrown (runtime_error (str what)).

(** [throw_runtime_error(std::string, char const *, int)]. *)
Definition throw_runtime_error_s (message : std_string) (file : c_string)
  (line : int) : outcome :=
  let what := ostringstream_new in
  let what := what <<c lit LF <<s message <<c lit (LF ++ "(")
                   <<c file <<c lit ":" <<i line <<c lit (")" ++ LF) in
  Thrown (runtime_error (str what)).

(** A call by name: the type of the message selects the overload. *)
Definition throw_contract_error (predicate : bool) (prefix : c_string)
  (message : message_value) (file : c_string) (line : int) : outcome :=
  match message with
  | char_ptr m => throw_contract_error_c predicate prefix m file line
  | std_str m => throw_contract_error_s predicate prefix m file line
  end.

Definition throw_runtime_error (message : message_value) (file : c_string)
  (line : int) : outcome :=
  match message with
  | char_ptr m => throw_runtime_error_c m file line
  | std_str m => throw_runtime_error_s m file line
  end.

Definition muli_precondition {St : Type} (o : arg_order)
  (PREDICATE : expr St bool) (MESSAGE : expr St message_value)
  (here : call_site) : St -> outcome * St :=
  fun s =>
    let '((p, m), s') := eval_args o PREDICATE MESSAGE s in
    (throw_contract_error p (lit "Precondition violation!") m
       (FILE here) (LINE here), s').

Definition muli_assert {St : Type} (o : arg_order)
  (PREDICATE : expr St bool) (MESSAGE : expr St message_value)
  (here : call_site) : St -> outcome * St :=
  muli_precondition o PREDICATE MESSAGE here.

Definition muli_postcondition {St : Type} (o : arg_order)
  (PREDICATE : expr St bool) (MESSAGE : expr St message_value)
  (here : call_site) : St -> outcome * St :=
  fun s =>
    let '((p, m), s') := eval_args o PREDICATE MESSAGE s in
    (throw_contract_error p (lit "Postcondition violation!") m
       (FILE here) (LINE here), s').

Definition muli_invariant {St : Type} (o : arg_order)
  (PREDICATE : expr St bool) (MESSAGE : expr St message_value)
  (here : call_site) : St -> outcome * St :=
  fun s =>
    let '((p, m), s') := eval_args o PREDICATE MESSAGE s in
    (throw_contract_error p (lit "Invariant violation!") m
       (FILE here) (LINE here), s').

Definition muli_fail {St : Type} (MESSAGE : expr St message_value)
  (here : call_site) : St -> outcome * St :=
  fun s =>
    let (m, s') := MESSAGE s in
    (throw_runtime_error m (FILE here) (LINE here), s').

End Checked.

(** *** The [#else] branch

    The helper of this branch is declared with the parameters
    [(bool predicate, char const * message)] and builds its exception from
    one argument, while the macros hand it three arguments.  Such calls have
    no transcription as typed applications, so for this branch arguments are
    listed as values tagged with their C++ type and a call is matched
    against the parameter lists that are declared.  [None] stands for a call
    that matches no declaration: the translation unit is ill-formed and is
    rejected when it is compiled. *)

Inductive cxx_value : Type :=
| v_bool (b : bool)
| v_char_ptr (s : c_string)
| v_string (s : std_string)
| v_int (n : int).

Definition value_of_message (m : message_value) : cxx_value :=
  match m with
  | char_ptr s => v_char_ptr s
  | std_str s => v_string s
  end.

(** [muli::ContractViolation(args...)]: the class declares the constructors
    [(prefix, message)] and [(prefix, message, file, line)] and inherits
    none. *)
Definition construct_ContractViolation (args : list cxx_value)
  : option exception :=
  match args with
  | [v_char_ptr prefix; v_char_ptr message] =>
      Some (ContractViolation.new prefix message)
  | [v_char_ptr prefix; v_char_ptr message; v_char_ptr file; v_int line] =>
      Some (ContractViolation.new_at prefix message file line)
  | _ => None
  end.

Module Release.

(** [throw_contract_error(bool predicate, char const * message)], whose body
    is [if(!predicate) throw muli::ContractViolation(message);]. *)
Definition throw_contract_error (predicate : bool) (message : c_string)
  : option outcome :=
  match construct_ContractViolation [v_char_ptr message] with
  | Some e => Some (if negb predicate then Thrown e else Returned)
  | None => None
  end.

(** [muli::throw_contract_error(args...)]: the one declaration above is in
    scope. *)
Definition call_throw_contract_error (args : list cxx_value) : option outcome :=
  match args with
  | [v_bool predicate; v_char_ptr message] =>
      throw_contract_error predicate message
  | _ => None
  end.

(** The definition of the helper is part of every translation unit that
    reads this branch, whichever macro the unit goes on to use: the unit is
    well-formed only if the constructor call in the body of the helper
    is. *)
Definition helper_is_well_formed : bool :=
  match throw_contract_error true (lit "") with
  | Some _ => true
  | None => false
  end.

Definition muli_precondition {St : Type} (o : arg_order)
  (PREDICATE : expr St bool) (MESSAGE : expr St message_value)
  (here : call_site) : St -> option (outcome * St) :=
  fun s =>
    let '((p, m), s') := eval_args o PREDICATE MESSAGE s in
    option_map (fun r => (r, s'))
      (call_throw_contract_error
         [v_bool p; v_char_ptr (lit "Precondition violation!");
          value_of_message m]).

(** [#define muli_assert(PREDICATE, MESSAGE)]: the replacement list is
    empty, in a translation unit that holds the helper. *)
Definition muli_assert {St : Type}
  (PREDICATE : expr St bool) (MESSAGE : expr St message_value)
  (here : call_site) : St -> option (outcome * St) :=
  fun s => if helper_is_well_formed then Some (Returned, s) else None.

Definition muli_postcondition {St : Type} (o : arg_order)
  (PREDICATE : expr St bool) (MESSAGE : expr St message_value)
  (here : call_site) : St -> option (outcome * St) :=
  fun s =>
    let '((p, m), s') := eval_args o PREDICATE MESSAGE s in
    option_map (fun r => (r, s'))
      (call_throw_contract_error
         [v_bool p; v_char_ptr (lit "Postcondition violation!");
          value_of_message m]).

Definition muli_invariant {St : Type} (o : arg_order)
  (PREDICATE : expr St bool) (MESSAGE : expr St message_value)
  (here : call_site) : St -> option (outcome * St) :=
  fun s =>
    let '((p, m), s') := eval_args o PREDICATE MESSAGE s in
    option_map (fun r => (r, s'))
      (call_throw_contract_error
         [v_bool p; v_char_ptr (lit "Invariant violation!");
          value_of_message m]).

(** [throw std::runtime_error(MESSAGE)], in a translation unit that holds
    the helper. *)
Definition muli_fail {St : Type} (MESSAGE : expr St message_value)
  (here : call_site) : St -> option (outcome * St) :=
  fun s =>
    if helper_is_well_formed
    then Some (let (m, s') := MESSAGE s in
               (Thrown match m with
                       | char_ptr m => runtime_error_c m
                       | std_str m => runtime_error m
                       end, s'))
    else None.

End Release.

(** *** The branch that is compiled

    The header selects its branch with [#if 1]; the line
    [//#ifndef NDEBUG] above it is a comment.  [NDEBUG] stands for whether
    that macro is defined when the header is read. *)

Inductive branch : Type :=
| if_branch
| else_branch.

(** [#if c]: the first branch unless [c] is zero. *)
Definition pp_if (c : Z) : branch :=
  if (c =? 0)%Z then else_branch else if_branch.

Definition selected (NDEBUG : bool) : branch := pp_if 1.

Module Compiled.

Definition muli_precondition {St : Type} (NDEBUG : bool) (o : arg_order)
  (PREDICATE : expr St bool) (MESSAGE : expr St message_value)
  (here : call_site) : St -> option (outcome * St) :=
  fun s =>
    match selected NDEBUG with
    | if_branch => Some (Checked.muli_precondition o PREDICATE MESSAGE here s)
    | else_branch => Release.muli_precondition o PREDICATE MESSAGE here s
    end.

Definition muli_assert {St : Type} (NDEBUG : bool) (o : arg_order)
  (PREDICATE : expr St bool) (MESSAGE : expr St message_value)
  (here : call_site) : St -> option (outcome * St) :=
  fun s =>
    match selected NDEBUG with
    | if_branch => Some (Checked.muli_assert o PREDICATE MESSAGE here s)
    | else_branch => Release.muli_assert PREDICATE MESSAGE here s
    end.

Definition muli_postcondition {St : Type} (NDEBUG : bool) (o : arg_order)
  (PREDICATE : expr St bool) (MESSAGE : expr St message_value)
  (here : call_site) : St -> option (outcome * St) :=
  fun s =>
    match selected NDEBUG with
    | if_branch => Some (Checked.muli_postcondition o PREDICATE MESSAGE here s)
    | else_branch => Release.muli_postcondition o PREDICATE MESSAGE here s
    end.

Definition muli_invariant {St : Type} (NDEBUG : bool) (o : arg_order)
  (PREDICATE : expr St bool) (MESSAGE : expr St message_value)
  (here : call_site) : St -> option (outcome * St) :=
  fun s =>
    match selected NDEBUG with
    | if_branch => Some (Checked.muli_invariant o PREDICATE MESSAGE here s)
    | else_branch => Release.muli_invariant o PREDICATE MESSAGE here s
    end.

Definition muli_fail {St : Type} (NDEBUG : bool)
  (MESSAGE : expr St message_value) (here : call_site)
  : St -> option (outcome * St) :=
  fun s =>
    match selected NDEBUG with
    | if_branch => Some (Checked.muli_fail MESSAGE here s)
    | else_branch => Release.muli_fail MESSAGE here s
    end.

End Compiled.

(** ** Vocabulary of the statements *)

(** [p] occurs in [s] as a substring. *)
Definition substring_of (p s : string) : Prop :=
  exists a b : string, s = a ++ p ++ b.

Definition begins_with_newline (s : string) : Prop :=
  exists r : string, s = LF ++ r.

Definition ends_with_newline (s : string) : Prop :=
  exists r : string, s = r ++ LF.

Fixpoint string_forall (f : ascii -> bool) (s : string) : bool :=
  match s with
  | EmptyString => true
  | String c r => f c && string_forall f r
  end.

(** The four macros that check a predicate. *)
Inductive contract_macro : Type :=
| k_precondition
| k_postcondition
| k_invariant
| k_assert.

(** The prefix the specification gives each of them. *)
Definition spec_prefix (c : contract_macro) : string :=
  match c with
  | k_precondition => "Precondition violation!"
  | k_postcondition => "Postcondition violation!"
  | k_invariant => "Invariant violation!"
  | k_assert => "Precondition violation!"
  end.

(** The macro of the [#if] branch that each name expands. *)
Definition checked_macro {St : Type} (c : contract_macro)
  : arg_order -> expr St bool -> expr St message_value -> call_site ->
    St -> outcome * St :=
  match c with
  | k_precondition => Checked.muli_precondition
  | k_postcondition => Checked.muli_postcondition
  | k_invariant => Checked.muli_invariant
  | k_assert => Checked.muli_assert
  end.

(** The macro each name expands in the program as it is compiled. *)
Definition compiled_macro {St : Type} (NDEBUG : bool) (c : contract_macro)
  : arg_order -> expr St bool -> expr St message_value -> call_site ->
    St -> option (outcome * St) :=
  match c with
  | k_precondition => Compiled.muli_precondition NDEBUG
  | k_postcondition => Compiled.muli_postcondition NDEBUG
  | k_invariant => Compiled.muli_invariant NDEBUG
  | k_assert => Compiled.muli_assert NDEBUG
  end.

(** A message text can reach a macro as a [char const *] or held by a
    [std::string]. *)
Inductive passing : Type :=
| as_char_ptr
| as_std_string.

Definition pass (how : passing) (m : c_string) : message_value :=
  match how with
  | as_char_ptr => char_ptr m
  | as_std_string => std_str (chars m)
  end.

(** The text a message value denotes for a reader of [char const *]. *)
Definition text_of (m : message_value) : c_string :=
  match m with
  | char_ptr s => s
  | std_str s => c_str s
  end.

(** The rendering the specification gives a failure with a location, with
    and without a prefix, and one without a location. *)
Definition spec_rendering_at (prefix message file : string) (line : Z) : string :=
  LF ++ prefix ++ LF ++ message ++ LF ++ "(" ++ file ++ ":" ++ decimal line
     ++ ")" ++ LF.

Definition spec_rendering_fail_at (message file : string) (line : Z) : string :=
  LF ++ message ++ LF ++ "(" ++ file ++ ":" ++ decimal line ++ ")" ++ LF.

Definition spec_rendering (prefix message : string) : string :=
  LF ++ prefix ++ LF ++ message ++ LF.

(** The characters [operator<<(int)] can write. *)
Definition decimal_char (c : ascii) : bool :=
  existsb (Ascii.eqb c) (list_ascii_of_string "-0123456789").

(** A character that is no newline, parenthesis, colon or decimal
    character. *)
Definition plain_char (x : ascii) : bool :=
  negb (existsb (Ascii.eqb x) (list_ascii_of_string (LF ++ "():-0123456789"))).

(** Reading a decimal numeral back. *)
Definition parse_decimal (s : string) : option Z :=
  option_map Z.of_int (NilZero.int_of_string s).

(** None of the three category prefixes occurs in [s]. *)
Definition no_category_prefix (s : string) : Prop :=
  forall c : contract_macro, ~ substring_of (spec_prefix c) s.

(** The prefix literal in the replacement list of each macro of the [#if]
    branch ([muli_assert] expands to [muli_precondition]). *)
Definition macro_prefix (c : contract_macro) : c_string :=
  match c with
  | k_precondition => lit "Precondition violation!"
  | k_postcondition => lit "Postcondition violation!"
  | k_invariant => lit "Invariant violation!"
  | k_assert => lit "Precondition violation!"
  end.

(** On the success path the message expression is left alone: the state
    after the macro is the state after the predicate. *)
Definition message_untouched_on_success {St : Type} (c : contract_macro)
  (o : arg_order) (P : expr St bool) (M : expr St message_value)
  (here : call_site) (s : St) : Prop :=
  fst (P s) = true -> snd (checked_macro c o P M here s) = snd (P s).

(** A message expression with a side effect on a caller that counts the
    evaluations. *)
Definition counting_message : expr nat message_value :=
  fun n => (char_ptr (lit "side effect"), S n).

(** A call site for the examples: file [t.x], line 42. *)
Definition t_x_42 : call_site := mk_call_site (lit "t.x") 42%Z.

(** The first line of [s], after its leading newline, is [p]. *)
Definition first_line_is (p s : string) : Prop :=
  exists r : string, s = LF ++ p ++ LF ++ r.

(** ** Lemmas on text *)

Lemma append_assoc (a b c : string) : (a ++ b) ++ c = a ++ b ++ c.
Proof.
  induction a as [|x a IH]; simpl; [reflexivity | now rewrite IH].
Qed.

Lemma append_nil_r (a : string) : a ++ "" = a.
Proof.
  induction a as [|x a IH]; simpl; [reflexivity | now rewrite IH].
Qed.

Lemma string_forall_app (f : ascii -> bool) (a b : string) :
  string_forall f (a ++ b) = string_forall f a && string_forall f b.
Proof.
  induction a as [|x a IH]; simpl; [reflexivity|].
  now rewrite IH, andb_assoc.
Qed.

Lemma no_nul_app (a b : string) : no_nul (a ++ b) = no_nul a && no_nul b.
Proof.
  induction a as [|x a IH]; simpl; [reflexivity|].
  now rewrite IH, andb_assoc.
Qed.

Lemma until_nul_id (s : string) : no_nul s = true -> until_nul s = s.
Proof.
  induction s as [|c r IH]; simpl; [reflexivity|].
  intros H. apply andb_true_iff in H. destruct H as [Hc Hr].
  apply negb_true_iff in Hc. rewrite Hc. now rewrite IH.
Qed.

Lemma until_nul_c_string (m : c_string) : until_nul (chars m) = chars m.
Proof. apply until_nul_id, chars_no_nul. Qed.

(** Two C strings with the same characters are the same. *)
Lemma c_string_eq (a b : c_string) : chars a = chars b -> a = b.
Proof.
  destruct a as [a Ha], b as [b Hb]; simpl. intros E. subst b.
  f_equal. apply (Eqdep_dec.UIP_dec bool_dec).
Qed.

Lemma c_str_chars (m : c_string) : c_str (chars m) = m.
Proof. apply c_string_eq. simpl. apply until_nul_c_string. Qed.

Lemma decimal_uint_chars (d : Decimal.uint) :
  string_forall decimal_char (NilEmpty.string_of_uint d) = true.
Proof. induction d; simpl; auto. Qed.

Lemma decimal_chars (n : Z) : string_forall decimal_char (decimal n) = true.
Proof.
  unfold decimal.
  assert (U : forall d, string_forall decimal_char (NilZero.string_of_uint d) = true).
  { intros d. destruct d; try apply decimal_uint_chars. reflexivity. }
  destruct (Z.to_int n) as [d|d]; simpl; [apply U | now rewrite U].
Qed.

Lemma string_forall_impl (f g : ascii -> bool) (s : string) :
  (forall c, f c = true -> g c = true) ->
  string_forall f s = true -> string_forall g s = true.
Proof.
  intros I. induction s as [|c r IH]; simpl; [reflexivity|].
  intros H. apply andb_true_iff in H. destruct H as [Hc Hr].
  now rewrite (I _ Hc), IH.
Qed.

Lemma no_nul_string_forall (s : string) :
  no_nul s = string_forall (fun c => negb (Ascii.eqb c NUL)) s.
Proof. induction s as [|c r IH]; simpl; [reflexivity | now rewrite IH]. Qed.

Lemma decimal_no_nul (n : Z) : no_nul (decimal n) = true.
Proof.
  rewrite no_nul_string_forall.
  apply string_forall_impl with (f := decimal_char); [|apply decimal_chars].
  intros c H. unfold decimal_char in H. simpl in H.
  destruct (Ascii.eqb c NUL) eqn:E; [|reflexivity].
  apply Ascii.eqb_eq in E. subst c. discriminate H.
Qed.

(** ** Lemmas on rendering *)

Ltac flatten_stream :=
  unfold str, put_c_string, put_std_string, put_int, ostringstream_new;
  cbn [chars]; repeat rewrite append_assoc; cbn [append].

Ltac solve_no_nul :=
  repeat rewrite no_nul_app;
  repeat rewrite chars_no_nul; repeat rewrite decimal_no_nul; reflexivity.

Lemma createMessage_eq (prefix message : c_string) :
  ContractViolation.createMessage prefix message
  = spec_rendering prefix message.
Proof.
  unfold ContractViolation.createMessage, spec_rendering.
  flatten_stream. reflexivity.
Qed.

Lemma createMessage_at_eq (prefix message file : c_string) (line : int) :
  ContractViolation.createMessage_at prefix message file line
  = spec_rendering_at prefix message file line.
Proof.
  unfold ContractViolation.createMessage_at, spec_rendering_at.
  flatten_stream. reflexivity.
Qed.

Lemma spec_rendering_no_nul (prefix message : c_string) :
  no_nul (spec_rendering prefix message) = true.
Proof. unfold spec_rendering. solve_no_nul. Qed.

Lemma spec_rendering_at_no_nul (prefix message file : c_string) (line : Z) :
  no_nul (spec_rendering_at prefix message file line) = true.
Proof. unfold spec_rendering_at. solve_no_nul. Qed.

Lemma spec_rendering_fail_at_no_nul (message file : c_string) (line : Z) :
  no_nul (spec_rendering_fail_at message file line) = true.
Proof. unfold spec_rendering_fail_at. solve_no_nul. Qed.

Lemma rendered_new (prefix message : c_string) :
  rendered (ContractViolation.new prefix message)
  = spec_rendering prefix message.
Proof.
  unfold rendered, what, ContractViolation.new. cbn [what_arg c_str chars].
  rewrite createMessage_eq. apply until_nul_id, spec_rendering_no_nul.
Qed.

Lemma rendered_new_at (prefix message file : c_string) (line : int) :
  rendered (ContractViolation.new_at prefix message file line)
  = spec_rendering_at prefix message file line.
Proof.
  unfold rendered, what, ContractViolation.new_at. cbn [what_arg c_str chars].
  rewrite createMessage_at_eq. apply until_nul_id, spec_rendering_at_no_nul.
Qed.

(** What the two overloads of [throw_runtime_error] throw for a message
    text. *)
Lemma throw_runtime_error_thrown (how : passing) (message file : c_string)
  (line : int) :
  Checked.throw_runtime_error (pass how message) file line
  = Thrown (runtime_error (spec_rendering_fail_at message file line)).
Proof.
  destruct how; cbn [pass Checked.throw_runtime_error];
    unfold Checked.throw_runtime_error_c, Checked.throw_runtime_error_s,
      spec_rendering_fail_at;
    flatten_stream; reflexivity.
Qed.

Lemma rendered_runtime_error (s : string) :
  no_nul s = true -> rendered (runtime_error s) = s.
Proof. intros H. unfold rendered, what. simpl. now apply until_nul_id. Qed.

(** What the two overloads of [throw_contract_error] do for a message
    text. *)
Lemma throw_contract_error_pass (how : passing) (predicate : bool)
  (prefix message file : c_string) (line : int) :
  Checked.throw_contract_error predicate prefix (pass how message) file line
  = if predicate then Returned
    else Thrown (ContractViolation.new_at prefix message file line).
Proof.
  destruct how; cbn [pass Checked.throw_contract_error];
    unfold Checked.throw_contract_error_c, Checked.throw_contract_error_s;
    try rewrite c_str_chars; destruct predicate; reflexivity.
Qed.

(** ** Lemmas on substrings *)

Lemma substring_of_refl (s : string) : substring_of s s.
Proof. exists "", "". simpl. now rewrite append_nil_r. Qed.

Lemma substring_of_app_l (p a b : string) :
  substring_of p a -> substring_of p (a ++ b).
Proof.
  intros (u & v & E). exists u, (v ++ b). subst a.
  now rewrite !append_assoc.
Qed.

Lemma substring_of_app_r (p a b : string) :
  substring_of p b -> substring_of p (a ++ b).
Proof.
  intros (u & v & E). exists (a ++ u), v. subst b.
  now rewrite !append_assoc.
Qed.

Lemma substring_of_nil (p : string) : substring_of p "" -> p = "".
Proof.
  intros (u & v & E). destruct u; [|discriminate E].
  destruct p; [reflexivity | discriminate E].
Qed.

Lemma substring_of_length (p s : string) :
  substring_of p s -> String.length p <= String.length s.
Proof.
  intros (u & v & ->).
  assert (L : forall a b, String.length (a ++ b) = String.length a + String.length b).
  { induction a as [|x a IH]; intros b; simpl; [reflexivity | now rewrite IH]. }
  rewrite !L. lia.
Qed.

(** Two ways of cutting one string overlap in a common piece. *)
Lemma append_eq_append (a b c d : string) :
  a ++ b = c ++ d ->
  (exists w, c = a ++ w /\ b = w ++ d) \/ (exists w, a = c ++ w /\ d = w ++ b).
Proof.
  revert c. induction a as [|x a IH]; intros c E.
  - left. exists c. split; [reflexivity | exact E].
  - destruct c as [|y c].
    + right. exists (String x a). split; [reflexivity | symmetry; exact E].
    + simpl in E. injection E as -> E.
      destruct (IH _ E) as [(w & -> & ->) | (w & -> & ->)].
      * left. now exists w.
      * right. now exists w.
Qed.

(** An occurrence of [p] does not cross a character that [p] lacks. *)
Lemma substring_of_split (p a b : string) (c : ascii) :
  string_forall (fun x => negb (Ascii.eqb x c)) p = true ->
  substring_of p (a ++ String c b) ->
  substring_of p a \/ substring_of p b.
Proof.
  intros Hp (u & v & E).
  destruct (append_eq_append _ _ _ _ E) as [(w & -> & E1) | (w & -> & E1)].
  - destruct w as [|y w]; simpl in E1.
    + destruct p as [|x p].
      * left. exists a, "". simpl. now rewrite append_nil_r.
      * simpl in E1. injection E1 as <- _. simpl in Hp.
        now rewrite Ascii.eqb_refl in Hp.
    + injection E1 as _ ->. right. now exists w, v.
  - destruct (append_eq_append _ _ _ _ E1) as [(t & E2 & E3) | (t & -> & E3)].
    + left. exists u, t. now rewrite E2.
    + destruct t as [|y t]; simpl in E3.
      * left. exists u, "". now rewrite !append_nil_r.
      * injection E3 as <- _. rewrite string_forall_app in Hp. simpl in Hp.
        rewrite Ascii.eqb_refl in Hp. simpl in Hp.
        now rewrite andb_false_r in Hp.
Qed.

(** A string does not occur where its first character is excluded. *)
Lemma substring_of_forall (f : ascii -> bool) (x : ascii) (p s : string) :
  string_forall f s = true -> f x = false -> ~ substring_of (String x p) s.
Proof.
  intros Hs Hx (u & v & E). subst s.
  rewrite string_forall_app in Hs. simpl in Hs. rewrite Hx in Hs.
  simpl in Hs. now rewrite andb_false_r in Hs.
Qed.

Lemma plain_char_not (c : ascii) (p : string) :
  In c (list_ascii_of_string (LF ++ "():-0123456789")) ->
  string_forall plain_char p = true ->
  string_forall (fun x => negb (Ascii.eqb x c)) p = true.
Proof.
  intros Hc. apply string_forall_impl. intros x Hx.
  destruct (Ascii.eqb x c) eqn:E; [|reflexivity].
  apply Ascii.eqb_eq in E. subst x. unfold plain_char in Hx.
  apply negb_true_iff in Hx.
  assert (T : existsb (Ascii.eqb c) (list_ascii_of_string (LF ++ "():-0123456789")) = true).
  { apply existsb_exists. exists c. split; [exact Hc | apply Ascii.eqb_refl]. }
  now rewrite T in Hx.
Qed.

(** A text of plain characters, such as each category prefix, occurs in the
    rendering of [muli_fail] only inside the message or the file name. *)
Lemma plain_in_fail_rendering (p message file : string) (line : Z) :
  p <> "" -> string_forall plain_char p = true ->
  substring_of p (spec_rendering_fail_at message file line) ->
  substring_of p message \/ substring_of p file.
Proof.
  intros Hne Hp H.
  assert (N : ~ substring_of p "").
  { intros S. now apply substring_of_nil in S. }
  assert (D : ~ substring_of p (decimal line)).
  { destruct p as [|x p]; [now elim Hne|].
    apply substring_of_forall with (f := decimal_char); [apply decimal_chars|].
    simpl in Hp. apply andb_true_iff in Hp. destruct Hp as [Hx _].
    unfold plain_char in Hx. apply negb_true_iff in Hx.
    unfold decimal_char.
    change (list_ascii_of_string (LF ++ "():-0123456789"))
      with (list_ascii_of_string (LF ++ "():")
              ++ list_ascii_of_string "-0123456789")%list in Hx.
    rewrite existsb_app in Hx. now apply orb_false_iff in Hx. }
  unfold spec_rendering_fail_at, LF in H.
  change (substring_of p
    ("" ++ String "010" (message ++ String "010" ("" ++ String "("
       (file ++ String ":" (decimal line ++ String ")" ("" ++ String "010" "")))))))
    in H.
  apply substring_of_split in H; [|apply plain_char_not; [simpl; tauto | exact Hp]].
  destruct H as [H|H]; [now elim N|].
  apply substring_of_split in H; [|apply plain_char_not; [simpl; tauto | exact Hp]].
  destruct H as [H|H]; [now left|].
  apply substring_of_split in H; [|apply plain_char_not; [simpl; tauto | exact Hp]].
  destruct H as [H|H]; [now elim N|].
  apply substring_of_split in H; [|apply plain_char_not; [simpl; tauto | exact Hp]].
  destruct H as [H|H]; [now right|].
  apply substring_of_split in H; [|apply plain_char_not; [simpl; tauto | exact Hp]].
  destruct H as [H|H]; [now elim D|].
  apply substring_of_split in H; [|apply plain_char_not; [simpl; tauto | exact Hp]].
  destruct H as [H|H]; now elim N.
Qed.

Lemma spec_prefix_plain (c : contract_macro) :
  spec_prefix c <> "" /\ string_forall plain_char (spec_prefix c) = true.
Proof. destruct c; split; (discriminate || reflexivity). Qed.

(** ** Lemmas on the macros *)

Lemma eval_args_map {St A B C : Type} (o : arg_order) (f : B -> C)
  (P : expr St A) (M : expr St B) (s : St) :
  eval_args o P (map_expr f M) s
  = (fst (fst (eval_args o P M s)), f (snd (fst (eval_args o P M s))),
     snd (eval_args o P M s)).
Proof.
  unfold eval_args, map_expr. destruct o.
  - destruct (P s) as [p s1]. destruct (M s1) as [m s2]. reflexivity.
  - destruct (M s) as [m s1]. destruct (P s1) as [p s2]. reflexivity.
Qed.

(** Each macro of the [#if] branch evaluates its two arguments and calls the
    helper with its own prefix. *)
Lemma checked_macro_run {St : Type} (c : contract_macro) (o : arg_order)
  (P : expr St bool) (M : expr St message_value) (here : call_site) (s : St) :
  checked_macro c o P M here s
  = (Checked.throw_contract_error (fst (fst (eval_args o P M s)))
       (macro_prefix c) (snd (fst (eval_args o P M s))) (FILE here) (LINE here),
     snd (eval_args o P M s)).
Proof.
  destruct c; cbn [checked_macro macro_prefix];
    unfold Checked.muli_assert, Checked.muli_precondition,
      Checked.muli_postcondition, Checked.muli_invariant;
    destruct (eval_args o P M s) as [[p m] s']; reflexivity.
Qed.

Lemma checked_macro_text {St : Type} (c : contract_macro) (o : arg_order)
  (how : passing) (P : expr St bool) (M : expr St c_string)
  (here : call_site) (s : St) :
  checked_macro c o P (map_expr (pass how) M) here s
  = (if fst (fst (eval_args o P M s)) then Returned
     else Thrown (ContractViolation.new_at (macro_prefix c)
                    (snd (fst (eval_args o P M s))) (FILE here) (LINE here)),
     snd (eval_args o P M s)).
Proof.
  rewrite checked_macro_run, eval_args_map. cbn [fst snd].
  now rewrite throw_contract_error_pass.
Qed.

Lemma throw_contract_error_text (predicate : bool) (prefix : c_string)
  (message : message_value) (file : c_string) (line : int) :
  Checked.throw_contract_error predicate prefix message file line
  = if predicate then Returned
    else Thrown (ContractViolation.new_at prefix (text_of message) file line).
Proof. destruct message, predicate; reflexivity. Qed.

Lemma macro_prefix_chars (c : contract_macro) :
  chars (macro_prefix c) = spec_prefix c.
Proof. destruct c; reflexivity. Qed.

Lemma muli_fail_text {St : Type} (how : passing) (M : expr St c_string)
  (here : call_site) (s : St) :
  Checked.muli_fail (map_expr (pass how) M) here s
  = (Thrown (runtime_error
       (spec_rendering_fail_at (fst (M s)) (FILE here) (LINE here))),
     snd (M s)).
Proof.
  unfold Checked.muli_fail, map_expr. destruct (M s) as [m s'].
  cbn [fst snd]. now rewrite throw_runtime_error_thrown.
Qed.

(** Whatever [NDEBUG] is, the macros compiled are those of the [#if]
    branch. *)
Lemma compiled_macro_checked {St : Type} (NDEBUG : bool) (c : contract_macro)
  (o : arg_order) (P : expr St bool) (M : expr St message_value)
  (here : call_site) (s : St) :
  compiled_macro NDEBUG c o P M here s = Some (checked_macro c o P M here s).
Proof. destruct c; reflexivity. Qed.

Lemma compiled_fail_checked {St : Type} (NDEBUG : bool)
  (M : expr St message_value) (here : call_site) (s : St) :
  Compiled.muli_fail NDEBUG M here s = Some (Checked.muli_fail M here s).
Proof. reflexivity. Qed.

(** Both overloads of [throw_runtime_error] store a string that begins with
    a newline. *)
Lemma throw_runtime_error_begins (m : message_value) (file : c_string)
  (line : int) :
  exists w : string,
    Checked.throw_runtime_error m file line = Thrown (runtime_error (LF ++ w)).
Proof.
  destruct m as [m|m]; cbn [Checked.throw_runtime_error];
    unfold Checked.throw_runtime_error_c, Checked.throw_runtime_error_s;
    flatten_stream; eexists; reflexivity.
Qed.

Lemma spec_rendering_at_begins (prefix message file : string) (line : Z) :
  begins_with_newline (spec_rendering_at prefix message file line)
  /\ ends_with_newline (spec_rendering_at prefix message file line).
Proof.
  split.
  - eexists. reflexivity.
  - exists (LF ++ prefix ++ LF ++ message ++ LF ++ "(" ++ file ++ ":"
              ++ decimal line ++ ")").
    unfold spec_rendering_at. now rewrite !append_assoc.
Qed.

Lemma spec_rendering_begins (prefix message : string) :
  begins_with_newline (spec_rendering prefix message)
  /\ ends_with_newline (spec_rendering prefix message).
Proof.
  split.
  - eexists. reflexivity.
  - exists (LF ++ prefix ++ LF ++ message).
    unfold spec_rendering. now rewrite !append_assoc.
Qed.

Lemma spec_rendering_fail_at_begins (message file : string) (line : Z) :
  begins_with_newline (spec_rendering_fail_at message file line)
  /\ ends_with_newline (spec_rendering_fail_at message file line).
Proof.
  split.
  - eexists. reflexivity.
  - exists (LF ++ message ++ LF ++ "(" ++ file ++ ":" ++ decimal line ++ ")").
    unfold spec_rendering_fail_at. now rewrite !append_assoc.
Qed.

Lemma parse_decimal_decimal (n : Z) : parse_decimal (decimal n) = Some n.
Proof.
  unfold parse_decimal, decimal.
  rewrite NilZero.isi.
  - simpl. now rewrite DecimalZ.of_to.
  - destruct n; simpl; try discriminate.
    intros E. injection E as E. now apply DecimalPos.Unsigned.to_uint_nonnil in E.
  - destruct n; simpl; try discriminate.
    intros E. injection E as E. now apply DecimalPos.Unsigned.to_uint_nonnil in E.
Qed.

(** * The statements of the specification *)

(** C1.  In the checked ([#if]) branch, for every predicate expression [P]
    and message text [M], passed as a [char const *] or as a [std::string],
    each of [muli_precondition], [muli_postcondition], [muli_invariant] and
    [muli_assert] returns normally if [P] evaluates to true and throws if and
    only if [P] evaluates to false; what it throws is a [ContractViolation]
    whose rendered string contains [M] and contains the prefix of the
    category ([muli_assert] has the prefix of [muli_precondition]). *)
Theorem C1_checked_contract_macros (St : Type) (c : contract_macro)
  (o : arg_order) (how : passing) (P : expr St bool) (M : expr St c_string)
  (here : call_site) (s : St) :
  let p := fst (fst (eval_args o P M s)) in
  let m := snd (fst (eval_args o P M s)) in
  let r := fst (checked_macro c o P (map_expr (pass how) M) here s) in
  (p = true -> r = Returned)
  /\ ((exists e, r = Thrown e) <-> p = false)
  /\ (forall e, r = Thrown e ->
        dynamic_class e = class_ContractViolation
        /\ substring_of (chars m) (rendered e)
        /\ substring_of (spec_prefix c) (rendered e)).
Proof.
  cbv zeta. rewrite checked_macro_text. cbn [fst].
  destruct (fst (fst (eval_args o P M s))).
  - split; [reflexivity|]. split.
    + split; [intros (e & E); discriminate E | discriminate].
    + intros e E. discriminate E.
  - split; [discriminate|]. split.
    + split; [reflexivity | intros _; eexists; reflexivity].
    + intros e E. injection E as <-. split; [reflexivity|].
      rewrite rendered_new_at, macro_prefix_chars. unfold spec_rendering_at.
      split.
      * exists (LF ++ spec_prefix c ++ LF). eexists.
        rewrite !append_assoc. reflexivity.
      * exists LF. eexists. reflexivity.
Qed.

Lemma C1_checked_contract_macros_witness :
  fst (checked_macro k_precondition predicate_first (pure true)
         (map_expr (pass as_char_ptr) (pure (lit "x>0"))) t_x_42 tt)
  = Returned
  /\ (substring_of "sum ok"
        (rendered (ContractViolation.new_at (lit "Postcondition violation!")
                     (lit "sum ok") (lit "t.x") 42%Z))
      /\ substring_of "Postcondition violation!"
           (rendered (ContractViolation.new_at (lit "Postcondition violation!")
                        (lit "sum ok") (lit "t.x") 42%Z))).
Proof.
  split.
  - apply (proj1 (C1_checked_contract_macros unit k_precondition
                    predicate_first as_char_ptr (pure true)
                    (pure (lit "x>0")) t_x_42 tt)).
    reflexivity.
  - apply (proj2 (proj2 (C1_checked_contract_macros unit k_postcondition
                           message_first as_std_string (pure false)
                           (pure (lit "sum ok")) t_x_42 tt))).
    reflexivity.
Defined.

(** C2.  For every prefix, message, file name and line, a [ContractViolation]
    constructed with a location renders exactly as newline, prefix, newline,
    message, newline, [(file:line)], newline; so does what each contract
    macro of the checked branch throws, with the prefix of its category; and
    a failing [muli_precondition(false, "x>0")] at line 42 of [t.x] renders
    as newline, [Precondition violation!], newline, [x>0], newline,
    [(t.x:42)], newline. *)
Theorem C2_rendering_with_location :
  (forall (prefix message file : c_string) (line : int),
     rendered (ContractViolation.new_at prefix message file line)
     = LF ++ prefix ++ LF ++ message ++ LF ++ "(" ++ file ++ ":"
          ++ decimal line ++ ")" ++ LF)
  /\ (forall (St : Type) (c : contract_macro) (o : arg_order) (how : passing)
             (M : expr St c_string) (here : call_site) (s : St),
        exists e,
          checked_macro c o (pure false) (map_expr (pass how) M) here s
          = (Thrown e, snd (M s))
          /\ rendered e
             = LF ++ spec_prefix c ++ LF ++ fst (M s) ++ LF
                  ++ "(" ++ FILE here ++ ":" ++ decimal (LINE here) ++ ")"
                  ++ LF)
  /\ (forall (St : Type) (o : arg_order) (how : passing) (s : St),
        exists e,
          Checked.muli_precondition o (pure false)
            (pure (pass how (lit "x>0"))) t_x_42 s = (Thrown e, s)
          /\ rendered e
             = LF ++ "Precondition violation!" ++ LF ++ "x>0" ++ LF
                  ++ "(t.x:42)" ++ LF).
Proof.
  split; [|split].
  - intros. apply rendered_new_at.
  - intros St c o how M here s. rewrite checked_macro_text.
    assert (E : eval_args o (pure false) M s = (false, fst (M s), snd (M s))).
    { unfold eval_args, pure. destruct o; destruct (M s); reflexivity. }
    rewrite E. cbn [fst snd]. eexists. split; [reflexivity|].
    now rewrite rendered_new_at, macro_prefix_chars.
  - intros St o how s. eexists. split.
    + destruct o, how; reflexivity.
    + reflexivity.
Qed.

(** C10.  For every prefix, message, file name and every integer line, zero
    and negative ones included, constructing a [ContractViolation] with a
    location yields an exception (the constructor has no failing path and
    the helper throws it whatever the line is), and the rendered string
    carries the decimal numeral of that integer in its [(file:line)] part:
    a numeral that reads back as the line, [0] for zero and a minus sign
    before the numeral of the absolute value for a negative line. *)
Theorem C10_any_line_is_rendered (prefix message file : c_string) (line : int) :
  construct_ContractViolation
    [v_char_ptr prefix; v_char_ptr message; v_char_ptr file; v_int line]
  = Some (ContractViolation.new_at prefix message file line)
  /\ Checked.throw_contract_error_c false prefix message file line
     = Thrown (ContractViolation.new_at prefix message file line)
  /\ rendered (ContractViolation.new_at prefix message file line)
     = LF ++ prefix ++ LF ++ message ++ LF
          ++ "(" ++ file ++ ":" ++ decimal line ++ ")" ++ LF
  /\ parse_decimal (decimal line) = Some line
  /\ decimal 0 = "0"
  /\ (forall q : positive, decimal (Z.neg q) = "-" ++ decimal (Z.pos q)).
Proof.
  split; [reflexivity|]. split; [reflexivity|].
  split; [apply rendered_new_at|]. split; [apply parse_decimal_decimal|].
  split; reflexivity.
Qed.

Example negative_line_is_rendered :
  rendered (ContractViolation.new_at (lit "Invariant violation!")
              (lit "tree balanced") (lit "t.x") (-7)%Z)
  = LF ++ "Invariant violation!" ++ LF ++ "tree balanced" ++ LF
       ++ "(t.x:-7)" ++ LF.
Proof. reflexivity. Qed.

(** C3, as the specification has it, fails: with a predicate that is true
    and a message expression that counts its evaluations, the count after
    [muli_precondition] is one, not zero. *)
Lemma C3_message_evaluated_on_success :
  ~ message_untouched_on_success k_precondition predicate_first
      (pure true) counting_message t_x_42 0%nat.
Proof.
  unfold message_untouched_on_success. intros H.
  specialize (H eq_refl). discriminate H.
Qed.

(** C3, amended.  Every macro of the checked branch passes its message as an
    argument of a function call, so the message expression is evaluated
    exactly once on every path, whatever the predicate yields: the state
    after the macro is the state after both the predicate and the message,
    in the order the compiler picked.  With a predicate that evaluates to
    true the macro then returns normally: the value of the message is not
    used. *)
Theorem C3_message_is_evaluated_as_an_argument (St : Type) (c : contract_macro)
  (P : expr St bool) (M : expr St message_value) (here : call_site) (s : St) :
  snd (checked_macro c predicate_first P M here s) = snd (M (snd (P s)))
  /\ snd (checked_macro c message_first P M here s) = snd (P (snd (M s)))
  /\ (forall o, fst (fst (eval_args o P M s)) = true ->
        fst (checked_macro c o P M here s) = Returned).
Proof.
  split; [|split].
  - rewrite checked_macro_run. unfold eval_args.
    destruct (P s) as [p s1]. cbn [snd]. destruct (M s1) as [m s2]. reflexivity.
  - rewrite checked_macro_run. unfold eval_args.
    destruct (M s) as [m s1]. cbn [snd]. destruct (P s1) as [p s2]. reflexivity.
  - intros o H. rewrite checked_macro_run. cbn [fst].
    rewrite throw_contract_error_text. now rewrite H.
Qed.

Lemma C3_message_is_evaluated_as_an_argument_witness :
  fst (checked_macro k_precondition predicate_first (pure true)
         counting_message t_x_42 0%nat) = Returned
  /\ snd (checked_macro k_precondition predicate_first (pure true)
            counting_message t_x_42 0%nat) = 1%nat.
Proof.
  split.
  - apply (C3_message_is_evaluated_as_an_argument nat k_precondition
             (pure true) counting_message t_x_42 0%nat).
    reflexivity.
  - exact (proj1 (C3_message_is_evaluated_as_an_argument nat k_precondition
                    (pure true) counting_message t_x_42 0%nat)).
Defined.

(** C4.  The header promises that [muli_assert] is removed when [NDEBUG] is
    defined, but it selects its branch with [#if 1]: with [NDEBUG] defined
    the [muli_assert] that is compiled is [muli_precondition].  It evaluates
    the predicate and the message, each once, and throws when the predicate
    is false: a false assertion with a counting message leaves the count at
    one and throws a failure rendered with [Precondition violation!] and the
    location.  The branch whose [muli_assert] has an empty replacement list
    is not selected, and a translation unit that reads it is ill-formed. *)
Theorem C4_assert_is_not_elided_under_NDEBUG (St : Type) (o : arg_order)
  (P : expr St bool) (M : expr St message_value) (here : call_site) (s : St) :
  Compiled.muli_assert true o P M here s
  = Some (Checked.throw_contract_error (fst (fst (eval_args o P M s)))
            (lit "Precondition violation!") (snd (fst (eval_args o P M s)))
            (FILE here) (LINE here),
          snd (eval_args o P M s))
  /\ (exists e,
        Compiled.muli_assert true predicate_first (pure false)
          counting_message t_x_42 0%nat = Some (Thrown e, 1%nat)
        /\ rendered e
           = LF ++ "Precondition violation!" ++ LF ++ "side effect" ++ LF
                ++ "(t.x:42)" ++ LF)
  /\ selected true = if_branch
  /\ Release.muli_assert P M here s = None.
Proof.
  split; [|split; [|split]].
  - unfold Compiled.muli_assert. cbn [selected pp_if Z.eqb].
    change (Checked.muli_assert o P M here s)
      with (checked_macro k_assert o P M here s).
    now rewrite checked_macro_run.
  - eexists. split; reflexivity.
  - reflexivity.
  - reflexivity.
Qed.

(** C5, as the specification has it, fails: [muli_fail] of a message that
    itself reads [Precondition violation!] renders a string in which that
    category prefix occurs. *)
Lemma C5_fail_can_carry_a_prefix :
  ~ (forall e,
       fst (Checked.muli_fail (pure (char_ptr (lit "Precondition violation!")))
              t_x_42 tt) = Thrown e ->
       no_category_prefix (rendered e)).
Proof.
  intros H. apply (H _ eq_refl k_precondition).
  exists LF, (LF ++ "(t.x:42)" ++ LF). reflexivity.
Qed.

(** C5, amended.  In the checked branch, for every message text [M], passed
    as a [char const *] or as a [std::string], [muli_fail(M)] always throws:
    a [std::runtime_error] whose rendered string is exactly newline, [M],
    newline, [(file:line)], newline with the location of the call.  It
    contains [M] and the location, and [muli_fail] adds no category prefix:
    a category prefix occurs in the rendered string exactly when it occurs
    in the message or in the file name. *)
Theorem C5_checked_fail (St : Type) (how : passing) (M : expr St c_string)
  (here : call_site) (s : St) :
  exists e,
    Checked.muli_fail (map_expr (pass how) M) here s = (Thrown e, snd (M s))
    /\ dynamic_class e = class_runtime_error
    /\ rendered e
       = LF ++ fst (M s) ++ LF ++ "(" ++ FILE here ++ ":"
            ++ decimal (LINE here) ++ ")" ++ LF
    /\ substring_of (fst (M s)) (rendered e)
    /\ substring_of ("(" ++ FILE here ++ ":" ++ decimal (LINE here) ++ ")")
         (rendered e)
    /\ (forall c : contract_macro,
          substring_of (spec_prefix c) (rendered e)
          <-> (substring_of (spec_prefix c) (fst (M s))
               \/ substring_of (spec_prefix c) (FILE here))).
Proof.
  eexists. split; [apply muli_fail_text|]. split; [reflexivity|].
  rewrite rendered_runtime_error by apply spec_rendering_fail_at_no_nul.
  split; [reflexivity|]. unfold spec_rendering_fail_at at 1 2.
  split; [|split].
  - exists LF. eexists. reflexivity.
  - exists (LF ++ fst (M s) ++ LF), LF. now rewrite !append_assoc.
  - intros c. split.
    + destruct (spec_prefix_plain c) as [Hne Hp].
      now apply plain_in_fail_rendering.
    + unfold spec_rendering_fail_at. intros [H|H].
      * apply substring_of_app_r, substring_of_app_l, H.
      * do 4 apply substring_of_app_r. apply substring_of_app_l, H.
Qed.

Lemma C5_checked_fail_witness :
  exists e,
    fst (Checked.muli_fail (map_expr (pass as_char_ptr) (pure (lit "bad input")))
           t_x_42 tt) = Thrown e
    /\ rendered e = LF ++ "bad input" ++ LF ++ "(t.x:42)" ++ LF
    /\ ~ substring_of "Precondition violation!" (rendered e).
Proof.
  destruct (C5_checked_fail unit as_char_ptr (pure (lit "bad input")) t_x_42 tt)
    as (e & R & _ & E & _ & _ & N).
  exists e. split; [now rewrite R|]. split; [exact E|].
  intros H. apply (N k_precondition) in H.
  destruct H as [H|H]; apply substring_of_length in H; simpl in H; lia.
Defined.

(** C6.  The rendered string of every [ContractViolation], constructed with
    or without a location, begins and ends with a newline, and so does the
    rendered string of whatever a macro throws in the program as compiled,
    with [NDEBUG] defined or not: the four contract macros for every
    message value, [muli_fail] for every message text, passed as a
    [char const *] or as a [std::string].  For every message value at all
    the rendered string of [muli_fail] begins with a newline. *)
Theorem C6_newlines_around_rendering :
  (forall prefix message : c_string,
     begins_with_newline (rendered (ContractViolation.new prefix message))
     /\ ends_with_newline (rendered (ContractViolation.new prefix message)))
  /\ (forall (prefix message file : c_string) (line : int),
        begins_with_newline
          (rendered (ContractViolation.new_at prefix message file line))
        /\ ends_with_newline
             (rendered (ContractViolation.new_at prefix message file line)))
  /\ (forall (St : Type) (NDEBUG : bool) (c : contract_macro) (o : arg_order)
             (P : expr St bool) (M : expr St message_value)
             (here : call_site) (s s' : St) (e : exception),
        compiled_macro NDEBUG c o P M here s = Some (Thrown e, s') ->
        begins_with_newline (rendered e) /\ ends_with_newline (rendered e))
  /\ (forall (St : Type) (NDEBUG : bool) (how : passing)
             (M : expr St c_string) (here : call_site) (s : St),
        exists e,
          Compiled.muli_fail NDEBUG (map_expr (pass how) M) here s
          = Some (Thrown e, snd (M s))
          /\ begins_with_newline (rendered e)
          /\ ends_with_newline (rendered e))
  /\ (forall (St : Type) (NDEBUG : bool) (M : expr St message_value)
             (here : call_site) (s s' : St) (e : exception),
        Compiled.muli_fail NDEBUG M here s = Some (Thrown e, s') ->
        begins_with_newline (rendered e)).
Proof.
  split; [|split; [|split; [|split]]].
  - intros. rewrite rendered_new. apply spec_rendering_begins.
  - intros. rewrite rendered_new_at. apply spec_rendering_at_begins.
  - intros St NDEBUG c o P M here s s' e.
    rewrite compiled_macro_checked, checked_macro_run, throw_contract_error_text.
    destruct (fst (fst (eval_args o P M s))); [discriminate|].
    intros E. injection E as <- _. rewrite rendered_new_at.
    apply spec_rendering_at_begins.
  - intros St NDEBUG how M here s. rewrite compiled_fail_checked, muli_fail_text.
    eexists. split; [reflexivity|].
    rewrite rendered_runtime_error by apply spec_rendering_fail_at_no_nul.
    apply spec_rendering_fail_at_begins.
  - intros St NDEBUG M here s s' e. rewrite compiled_fail_checked.
    unfold Checked.muli_fail. destruct (M s) as [m s1].
    destruct (throw_runtime_error_begins m (FILE here) (LINE here)) as (w & ->).
    intros E. injection E as <- _. exists (until_nul w). reflexivity.
Qed.

Lemma C6_newlines_around_rendering_witness :
  (begins_with_newline
     (rendered (mk_exception class_ContractViolation
        (LF ++ "Postcondition violation!" ++ LF ++ "sum ok" ++ LF
            ++ "(t.x:42)" ++ LF)))
   /\ ends_with_newline
        (rendered (mk_exception class_ContractViolation
           (LF ++ "Postcondition violation!" ++ LF ++ "sum ok" ++ LF
               ++ "(t.x:42)" ++ LF))))
  /\ begins_with_newline
       (rendered (mk_exception class_runtime_error
          (LF ++ "a" ++ String NUL "b" ++ LF ++ "(t.x:42)" ++ LF))).
Proof.
  split.
  - apply (proj1 (proj2 (proj2 C6_newlines_around_rendering)) unit true
             k_postcondition predicate_first (pure false)
             (pure (char_ptr (lit "sum ok"))) t_x_42 tt tt).
    reflexivity.
  - apply (proj2 (proj2 (proj2 (proj2 C6_newlines_around_rendering))) unit
             true (pure (std_str ("a" ++ String NUL "b"))) t_x_42 tt tt).
    reflexivity.
Defined.

(** C7.  In the release branch the three contract macros do not come to a
    call at all: each passes predicate, prefix and message to
    [throw_contract_error], which this branch declares with the two
    parameters predicate and message, and the body of that helper builds a
    [ContractViolation] from the message alone, for which the class has no
    constructor.  Nothing is thrown with the rendering newline, prefix,
    newline, message, newline, although the constructor for a prefix and a
    message renders exactly that.  Nor is this branch the one compiled when
    [NDEBUG] is defined: the macro compiled then is the one of the checked
    branch, which renders the location. *)
Theorem C7_release_contract_macros_are_ill_formed (St : Type) (o : arg_order)
  (P : expr St bool) (M : expr St message_value) (here : call_site) (s : St) :
  Release.muli_precondition o P M here s = None
  /\ Release.muli_postcondition o P M here s = None
  /\ Release.muli_invariant o P M here s = None
  /\ (forall (predicate : bool) (message : c_string),
        Release.throw_contract_error predicate message = None)
  /\ (forall prefix message : c_string,
        exists e,
          construct_ContractViolation [v_char_ptr prefix; v_char_ptr message]
          = Some e
          /\ rendered e = LF ++ prefix ++ LF ++ message ++ LF)
  /\ (forall NDEBUG : bool,
        Compiled.muli_precondition NDEBUG o P M here s
        = Some (Checked.muli_precondition o P M here s)).
Proof.
  unfold Release.muli_precondition, Release.muli_postcondition,
    Release.muli_invariant.
  destruct (eval_args o P M s) as [[p m] s'].
  split; [reflexivity|]. split; [reflexivity|]. split; [reflexivity|].
  split; [reflexivity|]. split; [|reflexivity].
  intros prefix message. eexists. split; [reflexivity|].
  apply rendered_new.
Qed.

Example release_precondition_false :
  Release.muli_precondition predicate_first (pure false)
    (pure (char_ptr (lit "x>0"))) t_x_42 tt = None.
Proof. reflexivity. Qed.

(** C8.  For every message text, the [char const *] overload and the
    [std::string] overload of each helper do the same: the helpers return or
    throw the same exception, and every macro of the checked branch behaves
    in the same way whether the text is passed as a [char const *] or held
    by a [std::string]. *)
Theorem C8_overloads_agree (predicate : bool) (prefix message file : c_string)
  (line : int) :
  Checked.throw_contract_error_s predicate prefix (chars message) file line
  = Checked.throw_contract_error_c predicate prefix message file line
  /\ Checked.throw_runtime_error_s (chars message) file line
     = Checked.throw_runtime_error_c message file line
  /\ (forall (St : Type) (c : contract_macro) (o : arg_order)
             (P : expr St bool) (M : expr St c_string)
             (here : call_site) (s : St),
        checked_macro c o P (map_expr (pass as_std_string) M) here s
        = checked_macro c o P (map_expr (pass as_char_ptr) M) here s)
  /\ (forall (St : Type) (M : expr St c_string) (here : call_site) (s : St),
        Checked.muli_fail (map_expr (pass as_std_string) M) here s
        = Checked.muli_fail (map_expr (pass as_char_ptr) M) here s).
Proof.
  split; [|split; [|split]].
  - unfold Checked.throw_contract_error_s, Checked.throw_contract_error_c.
    now rewrite c_str_chars.
  - reflexivity.
  - intros. now rewrite !checked_macro_text.
  - intros. now rewrite !muli_fail_text.
Qed.

(** A [std::string] that holds a NUL has no [char const *] of the same
    text: the helper for contract errors renders it up to the NUL. *)
Example std_string_with_nul_is_cut :
  forall e,
    Checked.throw_contract_error_s false (lit "Precondition violation!")
      ("a" ++ String NUL "b") (lit "t.x") 42%Z = Thrown e ->
    rendered e = LF ++ "Precondition violation!" ++ LF ++ "a" ++ LF
                    ++ "(t.x:42)" ++ LF.
Proof. intros e E. injection E as <-. reflexivity. Qed.

(** [throw_runtime_error] inserts the whole [std::string]; [what()] then
    shows it up to the NUL. *)
Example fail_std_string_with_nul_is_cut :
  forall e,
    Checked.throw_runtime_error_s ("a" ++ String NUL "b") (lit "t.x") 42%Z
    = Thrown e ->
    what_arg e = LF ++ "a" ++ String NUL "b" ++ LF ++ "(t.x:42)" ++ LF
    /\ rendered e = LF ++ "a".
Proof. intros e E. injection E as <-. split; reflexivity. Qed.

(** C9.  The header selects its branch with [#if 1], so whether or not
    [NDEBUG] is defined the macros of the checked branch are the ones
    compiled: [muli_assert] is [muli_precondition] for every predicate and
    message, and an assertion whose predicate evaluates to false throws a
    failure rendered with the prefix [Precondition violation!] and the
    location of the call. *)
Theorem C9_assert_is_precondition_as_compiled (St : Type) (NDEBUG : bool)
  (o : arg_order) (P : expr St bool) (here : call_site) (s : St) :
  selected NDEBUG = if_branch
  /\ (forall M : expr St message_value,
        Compiled.muli_assert NDEBUG o P M here s
        = Compiled.muli_precondition NDEBUG o P M here s
        /\ Compiled.muli_assert NDEBUG o P M here s
           = Some (Checked.muli_precondition o P M here s))
  /\ (forall (how : passing) (M : expr St c_string),
        fst (fst (eval_args o P M s)) = false ->
        exists e,
          Compiled.muli_assert NDEBUG o P (map_expr (pass how) M) here s
          = Some (Thrown e, snd (eval_args o P M s))
          /\ rendered e
             = LF ++ "Precondition violation!" ++ LF
                  ++ snd (fst (eval_args o P M s)) ++ LF
                  ++ "(" ++ FILE here ++ ":" ++ decimal (LINE here) ++ ")"
                  ++ LF).
Proof.
  split; [reflexivity|]. split.
  - intros M. split; reflexivity.
  - intros how M H. unfold Compiled.muli_assert. cbn [selected pp_if Z.eqb].
    change (Checked.muli_assert o P (map_expr (pass how) M) here s)
      with (checked_macro k_assert o P (map_expr (pass how) M) here s).
    rewrite checked_macro_text, H. eexists. split; [reflexivity|].
    apply rendered_new_at.
Qed.

Lemma C9_assert_is_precondition_as_compiled_witness :
  exists e,
    Compiled.muli_assert true predicate_first (pure false)
      (map_expr (pass as_char_ptr) (pure (lit "oops"))) t_x_42 tt
    = Some (Thrown e, tt)
    /\ rendered e
       = LF ++ "Precondition violation!" ++ LF ++ "oops" ++ LF
            ++ "(t.x:42)" ++ LF.
Proof.
  apply (proj2 (proj2 (C9_assert_is_precondition_as_compiled unit true
                         predicate_first (pure false) t_x_42 tt))
           as_char_ptr (pure (lit "oops"))).
  reflexivity.
Defined.

(** * Further properties of the header *)

(** ** Cutting and cancelling text *)

Lemma append_length (a b : string) :
  String.length (a ++ b) = String.length a + String.length b.
Proof. induction a as [|x a IH]; simpl; [reflexivity | now rewrite IH]. Qed.

Lemma append_inv_head (a x y : string) : a ++ x = a ++ y -> x = y.
Proof.
  induction a as [|c a IH]; simpl; intros E; [exact E|].
  injection E as E. now apply IH.
Qed.

Lemma append_inv_tail (a b c : string) : a ++ c = b ++ c -> a = b.
Proof.
  revert b. induction a as [|x a IH]; intros [|y b] E.
  - reflexivity.
  - apply (f_equal String.length) in E. simpl in E.
    rewrite append_length in E. lia.
  - apply (f_equal String.length) in E. simpl in E.
    rewrite append_length in E. lia.
  - simpl in E. injection E as -> E. f_equal. now apply IH.
Qed.

Lemma until_nul_app (a b : string) :
  until_nul (a ++ b) = if no_nul a then a ++ until_nul b else until_nul a.
Proof.
  induction a as [|c a IH]; simpl; [reflexivity|].
  destruct (Ascii.eqb c NUL); simpl; [reflexivity|].
  rewrite IH. now destruct (no_nul a).
Qed.

Lemma decimal_inj (a b : Z) : decimal a = decimal b -> a = b.
Proof.
  intros E. apply (f_equal parse_decimal) in E.
  rewrite !parse_decimal_decimal in E. now injection E.
Qed.

(** Two texts cut at the first occurrence of a character agree piece by
    piece. *)
Lemma append_char_inj (c : ascii) (a b x y : string) :
  string_forall (fun z => negb (Ascii.eqb z c)) a = true ->
  string_forall (fun z => negb (Ascii.eqb z c)) b = true ->
  a ++ String c x = b ++ String c y -> a = b /\ x = y.
Proof.
  revert b. induction a as [|u a IH]; intros [|v b] Ha Hb E; simpl in *.
  - injection E as E. now split.
  - injection E as <- _. now rewrite Ascii.eqb_refl in Hb.
  - injection E as -> _. now rewrite Ascii.eqb_refl in Ha.
  - injection E as -> E.
    apply andb_true_iff in Ha. apply andb_true_iff in Hb.
    destruct (IH b (proj2 Ha) (proj2 Hb) E) as [-> ->]. now split.
Qed.

(** ** The two renderings of a contract violation *)

(** X1.  The rendering with a location is the rendering without one followed
    by the line [(file:line)] and a newline: both overloads of
    [createMessage] write the same head, and both constructors store a
    string that [what()] shows whole. *)
Theorem X1_location_is_appended (prefix message file : c_string) (line : int) :
  ContractViolation.createMessage_at prefix message file line
  = ContractViolation.createMessage prefix message
      ++ "(" ++ file ++ ":" ++ decimal line ++ ")" ++ LF
  /\ rendered (ContractViolation.new_at prefix message file line)
     = rendered (ContractViolation.new prefix message)
         ++ "(" ++ file ++ ":" ++ decimal line ++ ")" ++ LF
  /\ rendered (ContractViolation.new prefix message)
     = what_arg (ContractViolation.new prefix message)
  /\ rendered (ContractViolation.new_at prefix message file line)
     = what_arg (ContractViolation.new_at prefix message file line).
Proof.
  assert (E : spec_rendering_at prefix message file line
              = spec_rendering prefix message
                  ++ "(" ++ file ++ ":" ++ decimal line ++ ")" ++ LF).
  { unfold spec_rendering_at, spec_rendering. now rewrite !append_assoc. }
  split; [now rewrite createMessage_at_eq, createMessage_eq|].
  split; [now rewrite rendered_new_at, rendered_new|].
  split.
  - rewrite rendered_new. symmetry. apply createMessage_eq.
  - rewrite rendered_new_at. symmetry. apply createMessage_at_eq.
Qed.

(** X2.  [throw_runtime_error] called with a message that begins with a
    category prefix and a newline stores the very string a
    [ContractViolation] with that prefix stores: the two exceptions differ in
    their class alone, so only the class, not the text, tells [muli_fail]
    from a contract macro. *)
Theorem X2_fail_can_render_as_a_contract_violation (how : passing)
  (prefix message file : c_string) (line : int) :
  Checked.throw_runtime_error
    (pass how (c_str (prefix ++ LF ++ message))) file line
  = Thrown (mk_exception class_runtime_error
              (what_arg (ContractViolation.new_at prefix message file line)))
  /\ Checked.throw_contract_error false prefix (pass how message) file line
     = Thrown (mk_exception class_ContractViolation
                 (what_arg (ContractViolation.new_at prefix message file line))).
Proof.
  split.
  - rewrite throw_runtime_error_thrown. unfold runtime_error. do 2 f_equal.
    cbn [ContractViolation.new_at what_arg]. rewrite createMessage_at_eq.
    unfold spec_rendering_fail_at, spec_rendering_at. cbn [c_str chars].
    rewrite until_nul_id by solve_no_nul.
    now rewrite !append_assoc.
  - now rewrite throw_contract_error_pass.
Qed.

(** ** Messages that hold a NUL *)

(** X3.  A contract macro given a [std::string] message renders it up to its
    first NUL and no further, and always keeps the prefix and the location:
    the string it stores holds no NUL, so [what()] shows all of it. *)
Theorem X3_contract_macros_cut_the_message_at_nul (St : Type)
  (c : contract_macro) (o : arg_order) (P : expr St bool)
  (M : expr St std_string) (here : call_site) (s : St) :
  exists e,
    checked_macro c o P (map_expr std_str M) here s
    = (if fst (fst (eval_args o P M s)) then Returned else Thrown e,
       snd (eval_args o P M s))
    /\ dynamic_class e = class_ContractViolation
    /\ what_arg e
       = LF ++ spec_prefix c ++ LF ++ until_nul (snd (fst (eval_args o P M s)))
            ++ LF ++ "(" ++ FILE here ++ ":" ++ decimal (LINE here) ++ ")" ++ LF
    /\ rendered e = what_arg e.
Proof.
  eexists. split; [|split; [|split]].
  - rewrite checked_macro_run, eval_args_map. cbn [fst snd].
    rewrite throw_contract_error_text. reflexivity.
  - reflexivity.
  - cbn [ContractViolation.new_at what_arg text_of].
    rewrite createMessage_at_eq, macro_prefix_chars. reflexivity.
  - rewrite rendered_new_at. cbn [ContractViolation.new_at what_arg].
    now rewrite createMessage_at_eq.
Qed.

(** X4.  [muli_fail] given a [std::string] message stores newline, the whole
    message, newline, [(file:line)], newline.  [what()] shows that string
    whole when the message holds no NUL; when it holds one, [what()] shows
    the newline and the message up to the NUL, and the location is not
    shown. *)
Theorem X4_fail_with_nul_hides_the_location (St : Type)
  (M : expr St std_string) (here : call_site) (s : St) :
  exists e,
    Checked.muli_fail (map_expr std_str M) here s = (Thrown e, snd (M s))
    /\ dynamic_class e = class_runtime_error
    /\ what_arg e
       = LF ++ fst (M s) ++ LF ++ "(" ++ FILE here ++ ":"
            ++ decimal (LINE here) ++ ")" ++ LF
    /\ rendered e
       = if no_nul (fst (M s)) then what_arg e
         else LF ++ until_nul (fst (M s)).
Proof.
  unfold Checked.muli_fail, map_expr. destruct (M s) as [m s'].
  cbn [fst snd Checked.throw_runtime_error].
  unfold Checked.throw_runtime_error_s. eexists.
  split; [reflexivity|]. split; [reflexivity|].
  unfold rendered, what, runtime_error. cbn [what_arg c_str chars].
  flatten_stream. split; [reflexivity|].
  change (LF ++ m ++ String "010" (String "(" (FILE here ++ String ":"
            (decimal (LINE here) ++ String ")" LF))))
    with (LF ++ m ++ LF ++ "(" ++ FILE here ++ ":" ++ decimal (LINE here)
             ++ ")" ++ LF).
  rewrite (until_nul_app LF). change (no_nul LF) with true. cbv iota.
  rewrite (until_nul_app m). destruct (no_nul m); [|reflexivity].
  assert (T : no_nul (LF ++ "(" ++ FILE here ++ ":" ++ decimal (LINE here)
                         ++ ")" ++ LF) = true) by solve_no_nul.
  rewrite until_nul_id by exact T. reflexivity.
Qed.

(** ** Reading a rendered string *)

(** X5.  With the other three parts fixed, the rendered string of a
    [ContractViolation] with a location determines the remaining part: two
    such exceptions with the same rendering have the same message, the same
    file name, the same line and the same prefix. *)
Theorem X5_rendering_is_injective_in_each_part
  (prefix message file : c_string) (line : int) :
  (forall message' : c_string,
     rendered (ContractViolation.new_at prefix message file line)
     = rendered (ContractViolation.new_at prefix message' file line) ->
     message = message')
  /\ (forall file' : c_string,
        rendered (ContractViolation.new_at prefix message file line)
        = rendered (ContractViolation.new_at prefix message file' line) ->
        file = file')
  /\ (forall line' : int,
        rendered (ContractViolation.new_at prefix message file line)
        = rendered (ContractViolation.new_at prefix message file line') ->
        line = line')
  /\ (forall prefix' : c_string,
        rendered (ContractViolation.new_at prefix message file line)
        = rendered (ContractViolation.new_at prefix' message file line) ->
        prefix = prefix').
Proof.
  split; [|split; [|split]].
  - intros m' E. rewrite !rendered_new_at in E. unfold spec_rendering_at in E.
    apply append_inv_head, append_inv_head, append_inv_head in E.
    apply append_inv_tail in E. now apply c_string_eq.
  - intros f' E. rewrite !rendered_new_at in E. unfold spec_rendering_at in E.
    do 6 apply append_inv_head in E.
    apply append_inv_tail in E. now apply c_string_eq.
  - intros l' E. rewrite !rendered_new_at in E. unfold spec_rendering_at in E.
    do 8 apply append_inv_head in E.
    apply append_inv_tail in E. now apply decimal_inj.
  - intros p' E. rewrite !rendered_new_at in E. unfold spec_rendering_at in E.
    apply append_inv_head in E.
    apply append_inv_tail in E. now apply c_string_eq.
Qed.

Lemma X5_rendering_is_injective_in_each_part_witness :
  lit "x>0" = lit "x>0" /\ lit "t.x" = lit "t.x" /\ 42%Z = 42%Z
  /\ lit "Precondition violation!" = lit "Precondition violation!".
Proof.
  destruct (X5_rendering_is_injective_in_each_part
              (lit "Precondition violation!") (lit "x>0") (lit "t.x") 42%Z)
    as (Hm & Hf & Hl & Hp).
  split; [apply Hm; reflexivity|].
  split; [apply Hf; reflexivity|].
  split; [apply Hl; reflexivity|].
  apply Hp; reflexivity.
Defined.

(** X6.  What a contract macro of the checked branch throws has the prefix
    of its category as the first line of its rendered string, whatever the
    message is, and no other category's prefix is its first line: the first
    line tells the categories apart even when the message contains the
    prefix of another category. *)
Theorem X6_first_line_names_the_category (St : Type) (c : contract_macro)
  (o : arg_order) (P : expr St bool) (M : expr St message_value)
  (here : call_site) (s : St) (e : exception) :
  fst (checked_macro c o P M here s) = Thrown e ->
  first_line_is (spec_prefix c) (rendered e)
  /\ (forall c' : contract_macro,
        first_line_is (spec_prefix c') (rendered e) ->
        spec_prefix c' = spec_prefix c).
Proof.
  rewrite checked_macro_run. cbn [fst]. rewrite throw_contract_error_text.
  destruct (fst (fst (eval_args o P M s))); [discriminate|].
  intros E. injection E as <-. rewrite rendered_new_at, macro_prefix_chars.
  unfold spec_rendering_at. split.
  - eexists. reflexivity.
  - intros c' (r & E). apply append_inv_head in E. symmetry.
    assert (Hc : forall k, string_forall (fun z => negb (Ascii.eqb z "010"))
                             (spec_prefix k) = true)
      by (intros k; destruct k; reflexivity).
    exact (proj1 (append_char_inj "010" (spec_prefix c) (spec_prefix c')
                    _ r (Hc c) (Hc c') E)).
Qed.

Lemma X6_first_line_names_the_category_witness :
  first_line_is "Precondition violation!"
    (rendered (ContractViolation.new_at (lit "Precondition violation!")
                 (lit "Invariant violation!") (lit "t.x") 42%Z))
  /\ ~ first_line_is "Invariant violation!"
         (rendered (ContractViolation.new_at (lit "Precondition violation!")
                      (lit "Invariant violation!") (lit "t.x") 42%Z)).
Proof.
  destruct (X6_first_line_names_the_category unit k_precondition
              predicate_first (pure false)
              (pure (char_ptr (lit "Invariant violation!"))) t_x_42 tt _
              eq_refl) as [H1 H2].
  split; [exact H1|].
  intros H. specialize (H2 k_invariant H). discriminate H2.
Defined.

(** X7.  A contract macro of the checked branch does the same under both
    orders in which a compiler may evaluate its two arguments when the
    message is a constant, such as a string literal, when the predicate is a
    constant, or when neither the predicate nor the message changes the
    state of the caller. *)
Theorem X7_order_is_immaterial_for_constant_or_effect_free_arguments
  (St : Type) (c : contract_macro) (P : expr St bool)
  (M : expr St message_value) (here : call_site) (s : St) :
  (forall m : message_value,
     checked_macro c predicate_first P (pure m) here s
     = checked_macro c message_first P (pure m) here s)
  /\ (forall p : bool,
        checked_macro c predicate_first (pure p) M here s
        = checked_macro c message_first (pure p) M here s)
  /\ ((forall t : St, snd (P t) = t) -> (forall t : St, snd (M t) = t) ->
      checked_macro c predicate_first P M here s
      = checked_macro c message_first P M here s).
Proof.
  split; [|split].
  - intros x. rewrite !checked_macro_run. unfold eval_args, pure.
    destruct (P s) as [p s1]. reflexivity.
  - intros x. rewrite !checked_macro_run. unfold eval_args, pure.
    destruct (M s) as [m s1]. reflexivity.
  - intros HP HM. rewrite !checked_macro_run. unfold eval_args.
    pose proof (HP s) as E1. pose proof (HM s) as E2.
    destruct (P s) as [p s1] eqn:EP. simpl in E1. subst s1.
    destruct (M s) as [m s2] eqn:EM. simpl in E2. subst s2.
    rewrite EP. reflexivity.
Qed.

Lemma X7_order_is_immaterial_for_constant_or_effect_free_arguments_witness :
  checked_macro k_invariant predicate_first
    (fun n => (Nat.eqb n 0, n))
    (fun n => (std_str (decimal (Z.of_nat n)), n)) t_x_42 1%nat
  = checked_macro k_invariant message_first
      (fun n => (Nat.eqb n 0, n))
      (fun n => (std_str (decimal (Z.of_nat n)), n)) t_x_42 1%nat.
Proof.
  apply (X7_order_is_immaterial_for_constant_or_effect_free_arguments nat
           k_invariant (fun n => (Nat.eqb n 0, n))
           (fun n => (std_str (decimal (Z.of_nat n)), n)) t_x_42 1%nat).
  - intros t. reflexivity.
  - intros t. reflexivity.
Defined.

(** The order matters when one argument writes what the other reads, even
    if the reader itself changes nothing: a predicate that reads the count
    the message expression increments, and a message that reads the count
    the predicate increments. *)
Example order_matters_with_two_effects :
  fst (Checked.muli_precondition predicate_first
         (fun n => (Nat.eqb n 0, n)) counting_message t_x_42 0%nat)
  = Returned
  /\ fst (Checked.muli_precondition message_first
            (fun n => (Nat.eqb n 0, n)) counting_message t_x_42 0%nat)
     <> Returned
  /\ fst (Checked.muli_precondition predicate_first
            (fun n => (false, S n))
            (fun n => (std_str (decimal (Z.of_nat n)), n)) t_x_42 0%nat)
     <> fst (Checked.muli_precondition message_first
               (fun n => (false, S n))
               (fun n => (std_str (decimal (Z.of_nat n)), n)) t_x_42 0%nat).
Proof. split; [reflexivity | split; discriminate]. Qed.

(** X8.  The rendered string does not determine message and file name
    together: a message that ends with a line [(f:l)] and a file name [g]
    render the same as the message without that line and a file name that
    begins with [f:l)], a newline and [(], before [g].  Only the last
    [(file:line)] of a rendered string is sure to come from the location
    arguments. *)
Theorem X8_message_and_file_are_not_separable (prefix m f g : c_string)
  (l k : int) :
  rendered (ContractViolation.new_at prefix
              (c_str (m ++ LF ++ "(" ++ f ++ ":" ++ decimal l ++ ")")) g k)
  = rendered (ContractViolation.new_at prefix m
                (c_str (f ++ ":" ++ decimal l ++ ")" ++ LF ++ "(" ++ g)) k)
  /\ rendered (ContractViolation.new_at prefix m
                 (c_str (f ++ ":" ++ decimal l ++ ")" ++ LF ++ "(" ++ g)) k)
     = LF ++ prefix ++ LF ++ m ++ LF ++ "(" ++ f ++ ":" ++ decimal l ++ ")"
          ++ LF ++ "(" ++ g ++ ":" ++ decimal k ++ ")" ++ LF.
Proof.
  rewrite !rendered_new_at. unfold spec_rendering_at. cbn [c_str chars].
  rewrite !until_nul_id by solve_no_nul.
  rewrite !append_assoc. split; reflexivity.
Qed.
